(** * Robot: a point robot in a bounded 2D world (Robot.py)

    A shallow embedding of the [Robot] class: noisy motion with boundary
    rejection, random landmark placement and noisy landmark sensing.

    Modelling choices.
    - Python numbers are exact rationals ([Q]); the rounding of binary
      floating point and its special values are outside this model.
      Numeric equality is [Qeq] (written [==]), the counterpart of
      Python's [==] on numbers.
    - The boundary test of [move] is where a NaN changes the outcome, so
      the constructor and [move] are embedded a second time, in the module
      [Binary64], on IEEE 754 binary64 floats.
    - Landmark coordinates are what [round] returns: Python integers ([Z]).
    - The process-wide generator behind [random.random()] is an explicit
      stream of draws with a cursor; every call returns the draw under the
      cursor and advances it by one.
    - Methods are computations in a state monad over the pair of the
      robot object and the generator. *)

From Stdlib Require Import ZArith QArith Qabs Qround List Bool Sorted Lia Lqa.
From Stdlib Require Floats.
Import ListNotations.

Open Scope Q_scope.

(** ** Numbers *)

(** [a < b] as a boolean test. *)
Definition Qlt_bool (a b : Q) : bool := negb (Qle_bool b a).

(** Python's [round(v)] with one argument: the nearest integer, a tie
    going to the even neighbour. *)
Definition py_round (v : Q) : Z :=
  let f := Qfloor v in
  let d := v - inject_Z f in
  if Qlt_bool d (1 # 2) then f
  else if Qlt_bool (1 # 2) d then (f + 1)%Z
  else if Z.even f then f else (f + 1)%Z.

(** [enumerate(l)], counting from [i]. *)
Fixpoint enumerate_from {A : Type} (i : Z) (l : list A) : list (Z * A) :=
  match l with
  | [] => []
  | a :: l' => (i, a) :: enumerate_from (i + 1)%Z l'
  end.

Definition enumerate {A : Type} (l : list A) : list (Z * A) :=
  enumerate_from 0%Z l.

(** ** The random module *)

Record Rng : Type := mkRng {
  draws : nat -> Q;   (* the values random.random() will return, in order *)
  cursor : nat        (* how many of them have been consumed *)
}.

Definition next_draw (g : Rng) : Q := draws g (cursor g).

Definition advance (k : nat) (g : Rng) : Rng :=
  {| draws := draws g; cursor := (k + cursor g)%nat |}.

(** The contract of [random.random()]: every draw lies in [[0, 1)]. *)
Definition unit_draws (g : Rng) : Prop :=
  forall i : nat, 0 <= draws g i /\ draws g i < 1.

(** ** The robot object *)

Definition Landmark : Type := (Z * Z)%type.

Record Robot : Type := mkRobot {
  world_size : Q;
  measurement_range : Q;
  x : Q;
  y : Q;
  motion_noise : Q;
  measurement_noise : Q;
  landmarks : list Landmark;
  num_landmarks : Z
}.

Definition with_x (v : Q) (r : Robot) : Robot :=
  {| world_size := world_size r; measurement_range := measurement_range r;
     x := v; y := y r;
     motion_noise := motion_noise r; measurement_noise := measurement_noise r;
     landmarks := landmarks r; num_landmarks := num_landmarks r |}.

Definition with_y (v : Q) (r : Robot) : Robot :=
  {| world_size := world_size r; measurement_range := measurement_range r;
     x := x r; y := v;
     motion_noise := motion_noise r; measurement_noise := measurement_noise r;
     landmarks := landmarks r; num_landmarks := num_landmarks r |}.

Definition with_landmarks (l : list Landmark) (r : Robot) : Robot :=
  {| world_size := world_size r; measurement_range := measurement_range r;
     x := x r; y := y r;
     motion_noise := motion_noise r; measurement_noise := measurement_noise r;
     landmarks := l; num_landmarks := num_landmarks r |}.

Definition with_num_landmarks (n : Z) (r : Robot) : Robot :=
  {| world_size := world_size r; measurement_range := measurement_range r;
     x := x r; y := y r;
     motion_noise := motion_noise r; measurement_noise := measurement_noise r;
     landmarks := landmarks r; num_landmarks := n |}.

(** ** The state monad of a method call *)

Record World : Type := mkWorld {
  self : Robot;
  rng : Rng
}.

Definition M (A : Type) : Type := World -> A * World.

Definition ret {A : Type} (a : A) : M A := fun w => (a, w).

Definition bind {A B : Type} (m : M A) (k : A -> M B) : M B :=
  fun w => let (a, w') := m w in k a w'.

Notation "v <- m ;; k" := (bind m (fun v => k))
  (at level 61, m at next level, right associativity).
Notation "m ;; k" := (bind m (fun _ => k))
  (at level 61, right associativity).

(** Reading an attribute of [self]. *)
Definition attr {A : Type} (f : Robot -> A) : M A :=
  fun w => (f (self w), w).

(** Assigning to an attribute of [self]. *)
Definition assign (upd : Robot -> Robot) : M unit :=
  fun w => (tt, {| self := upd (self w); rng := rng w |}).

(** [random.random()]. *)
Definition random_random : M Q :=
  fun w => (next_draw (rng w), {| self := self w; rng := advance 1 (rng w) |}).

(** ** Robot.__init__ *)

Definition __init__ (world_size measurement_range
                     motion_noise measurement_noise : Q) : Robot :=
  {| world_size := world_size;
     measurement_range := measurement_range;
     x := world_size / 2;
     y := world_size / 2;
     motion_noise := motion_noise;
     measurement_noise := measurement_noise;
     landmarks := [];
     num_landmarks := 0 |}.

(** The constructor called with no argument. *)
Definition default_robot : Robot := __init__ 100 30 1 1.

(** ** Robot._rand *)

Definition _rand : M Q :=
  u <- random_random ;;
  ret (u * 2 - 1).

(** ** Robot.move *)

Definition out_of_world (px py ws : Q) : bool :=
  (Qlt_bool px 0 || Qlt_bool ws px) || (Qlt_bool py 0 || Qlt_bool ws py).

Definition move (dx dy : Q) : M bool :=
  x0 <- attr x ;;
  r1 <- _rand ;;
  mn1 <- attr motion_noise ;;
  let x' := x0 + dx + r1 * mn1 in
  y0 <- attr y ;;
  r2 <- _rand ;;
  mn2 <- attr motion_noise ;;
  let y' := y0 + dy + r2 * mn2 in
  ws <- attr world_size ;;
  if out_of_world x' y' ws then
    ret false
  else
    assign (with_x x') ;;
    assign (with_y y') ;;
    ret true.

(** ** Robot.sense *)

(** One entry [[index, dx, dy]] of the returned list. *)
Definition Measurement : Type := (Z * Q * Q)%type.

Definition m_index (m : Measurement) : Z := fst (fst m).
Definition m_dx (m : Measurement) : Q := snd (fst m).
Definition m_dy (m : Measurement) : Q := snd m.

(** The body of the [for] loop, over what is left of
    [enumerate(self.landmarks)]. *)
Fixpoint sense_loop (all_landmarks_within_range : bool)
    (items : list (Z * Landmark)) (measurements : list Measurement)
    : M (list Measurement) :=
  match items with
  | [] => ret measurements
  | (index, (landmark_x, landmark_y)) :: rest =>
      x0 <- attr x ;;
      r1 <- _rand ;;
      s1 <- attr measurement_noise ;;
      let dx := (inject_Z landmark_x - x0) + r1 * s1 in
      y0 <- attr y ;;
      r2 <- _rand ;;
      s2 <- attr measurement_noise ;;
      let dy := (inject_Z landmark_y - y0) + r2 * s2 in
      mr <- attr measurement_range ;;
      let is_landmark_within_range :=
        all_landmarks_within_range
        || (Qle_bool (Qabs dx) mr && Qle_bool (Qabs dy) mr) in
      sense_loop all_landmarks_within_range rest
        (if is_landmark_within_range
         then measurements ++ [(index, dx, dy)]
         else measurements)
  end.

Definition sense : M (list Measurement) :=
  mr <- attr measurement_range ;;
  let all_landmarks_within_range := Qeq_bool mr (-1) in
  lms <- attr landmarks ;;
  sense_loop all_landmarks_within_range (enumerate lms) [].

(** ** Robot.make_landmarks *)

(** The [for i in range(num_landmarks)] loop, with [k] iterations left. *)
Fixpoint make_landmarks_loop (k : nat) : M unit :=
  match k with
  | O => ret tt
  | S k' =>
      u1 <- random_random ;;
      ws1 <- attr world_size ;;
      u2 <- random_random ;;
      ws2 <- attr world_size ;;
      lms <- attr landmarks ;;
      assign (with_landmarks (lms ++ [(py_round (u1 * ws1), py_round (u2 * ws2))])) ;;
      make_landmarks_loop k'
  end.

(** [range(n)] is empty for a negative [n]. *)
Definition make_landmarks (n : Z) : M unit :=
  assign (with_landmarks []) ;;
  make_landmarks_loop (Z.to_nat n) ;;
  assign (with_num_landmarks n).

(** ** What the methods compute, in closed form

    These definitions restate nothing: they name the quantities the
    theorems below speak about (the candidate position of a move, the
    entries a run of the sensing loop appends). *)

(** The noise sample [_rand] derives from the draw numbered [i]. *)
Definition noise_at (d : nat -> Q) (i : nat) : Q := d i * 2 - 1.

(** The candidate position [move dx dy] computes before its boundary test:
    the first draw goes to the x axis, the second to the y axis. *)
Definition candidate_x (w : World) (dx : Q) : Q :=
  x (self w) + dx + noise_at (draws (rng w)) (cursor (rng w)) * motion_noise (self w).

Definition candidate_y (w : World) (dy : Q) : Q :=
  y (self w) + dy + noise_at (draws (rng w)) (S (cursor (rng w))) * motion_noise (self w).

(** The inclusive-bounds condition on a position. *)
Definition in_world (ws px py : Q) : Prop :=
  (0 <= px /\ px <= ws) /\ (0 <= py /\ py <= ws).

(** The entries the sensing loop appends for [items], reading the draws
    [d] from position [c] on. *)
Fixpoint observe (r : Robot) (all : bool) (d : nat -> Q) (c : nat)
    (items : list (Z * Landmark)) : list Measurement :=
  match items with
  | [] => []
  | (index, (lx, ly)) :: rest =>
      let dx := (inject_Z lx - x r) + noise_at d c * measurement_noise r in
      let dy := (inject_Z ly - y r) + noise_at d (S c) * measurement_noise r in
      (if all || (Qle_bool (Qabs dx) (measurement_range r)
                  && Qle_bool (Qabs dy) (measurement_range r))
       then [(index, dx, dy)] else [])
      ++ observe r all d (S (S c)) rest
  end.

(** The landmarks [make_landmarks] appends in [k] iterations, reading the
    draws [d] from position [c] on. *)
Fixpoint placed (ws : Q) (d : nat -> Q) (c : nat) (k : nat) : list Landmark :=
  match k with
  | O => []
  | S k' =>
      (py_round (d c * ws), py_round (d (S c) * ws))
      :: placed ws d (S (S c)) k'
  end.

(** Numeric equality of two measurements. *)
Definition Meq (m1 m2 : Measurement) : Prop :=
  m_index m1 = m_index m2 /\ m_dx m1 == m_dx m2 /\ m_dy m1 == m_dy m2.

(** The noise-free reading of a landmark, and the range test on it. *)
Definition exact_measurement (r : Robot) (item : Z * Landmark) : Measurement :=
  (fst item, inject_Z (fst (snd item)) - x r, inject_Z (snd (snd item)) - y r).

Definition observable (r : Robot) (m : Measurement) : bool :=
  Qeq_bool (measurement_range r) (-1)
  || (Qle_bool (Qabs (m_dx m)) (measurement_range r)
      && Qle_bool (Qabs (m_dy m)) (measurement_range r)).

(** ** A robot's lifetime

    A world is reachable when it results from constructing a robot and
    calling its methods any number of times. *)

Inductive reachable : World -> Prop :=
| reach_init (ws mr mn sn : Q) (g : Rng) :
    reachable {| self := __init__ ws mr mn sn; rng := g |}
| reach_move (w : World) (dx dy : Q) :
    reachable w -> reachable (snd (move dx dy w))
| reach_sense (w : World) :
    reachable w -> reachable (snd (sense w))
| reach_make_landmarks (w : World) (n : Z) :
    reachable w -> reachable (snd (make_landmarks n w)).

(** [num_landmarks] counts [landmarks]; a negative count goes with an
    empty list. *)
Definition landmarks_counted (r : Robot) : Prop :=
  Z.of_nat (length (landmarks r)) = Z.max 0 (num_landmarks r).

(** ** Sample worlds

    A generator that returns the values of a list and then one half, and
    robots built on it; the examples below are evaluated on them. *)

Definition seeded (l : list Q) : Rng :=
  {| draws := fun i => nth i l (1 # 2); cursor := 0 |}.

Definition sample_draws : list Q :=
  [1 # 10; 9 # 10; 1 # 2; 1 # 4; 3 # 4; 1 # 8; 7 # 8; 3 # 8; 5 # 8; 0].

(** [Robot(100, mr, mn, sn)], the generator not yet used. *)
Definition fresh_world (mr mn sn : Q) : World :=
  {| self := __init__ 100 mr mn sn; rng := seeded sample_draws |}.

(** The same, followed by [make_landmarks(n)]. *)
Definition sample_world (mr mn sn : Q) (n : Z) : World :=
  snd (make_landmarks n (fresh_world mr mn sn)).

(** ** Calls made on a given robot

    [calls w0 w]: the world [w] results from the world [w0] by calling
    methods any number of times. *)

Inductive calls (w0 : World) : World -> Prop :=
| calls_none : calls w0 w0
| calls_move (w : World) (dx dy : Q) :
    calls w0 w -> calls w0 (snd (move dx dy w))
| calls_sense (w : World) :
    calls w0 w -> calls w0 (snd (sense w))
| calls_make_landmarks (w : World) (n : Z) :
    calls w0 w -> calls w0 (snd (make_landmarks n w)).

(** The same robot with another measurement range, as the constructor
    would have set it. *)
Definition with_measurement_range (mr : Q) (r : Robot) : Robot :=
  {| world_size := world_size r; measurement_range := mr;
     x := x r; y := y r;
     motion_noise := motion_noise r; measurement_noise := measurement_noise r;
     landmarks := landmarks r; num_landmarks := num_landmarks r |}.

(** The noisy reading of the landmark [(lx, ly)] taken with the draws
    numbered [j] and [j + 1]. *)
Definition reading (r : Robot) (d : nat -> Q) (j : nat) (i : Z)
    (lx ly : Z) : Measurement :=
  (i, inject_Z lx - x r + noise_at d j * measurement_noise r,
      inject_Z ly - y r + noise_at d (S j) * measurement_noise r).

Definition passes (r : Robot) (all : bool) (m : Measurement) : bool :=
  all || (Qle_bool (Qabs (m_dx m)) (measurement_range r)
          && Qle_bool (Qabs (m_dy m)) (measurement_range r)).

(** ** The constructor and [move] on binary64 floats

    Python's [float] is the IEEE 754 binary64 format, here the primitive
    floats: every operation rounds as the machine does, and a NaN compares
    false with everything, itself included. *)

Module Binary64.

Import PrimFloat.
Local Open Scope float_scope.

Record Rng : Type := mkRng {
  draws : nat -> float;
  cursor : nat
}.

Definition next_draw (g : Rng) : float := draws g (cursor g).

Definition advance (k : nat) (g : Rng) : Rng :=
  {| draws := draws g; cursor := (k + cursor g)%nat |}.

Record Robot : Type := mkRobot {
  world_size : float;
  measurement_range : float;
  x : float;
  y : float;
  motion_noise : float;
  measurement_noise : float;
  landmarks : list Landmark;
  num_landmarks : Z
}.

Definition with_x (v : float) (r : Robot) : Robot :=
  {| world_size := world_size r; measurement_range := measurement_range r;
     x := v; y := y r;
     motion_noise := motion_noise r; measurement_noise := measurement_noise r;
     landmarks := landmarks r; num_landmarks := num_landmarks r |}.

Definition with_y (v : float) (r : Robot) : Robot :=
  {| world_size := world_size r; measurement_range := measurement_range r;
     x := x r; y := v;
     motion_noise := motion_noise r; measurement_noise := measurement_noise r;
     landmarks := landmarks r; num_landmarks := num_landmarks r |}.

Record World : Type := mkWorld {
  self : Robot;
  rng : Rng
}.

Definition M (A : Type) : Type := World -> A * World.

Definition ret {A : Type} (a : A) : M A := fun w => (a, w).

Definition bind {A B : Type} (m : M A) (k : A -> M B) : M B :=
  fun w => let (a, w') := m w in k a w'.

Definition attr {A : Type} (f : Robot -> A) : M A :=
  fun w => (f (self w), w).

Definition assign (upd : Robot -> Robot) : M unit :=
  fun w => (tt, {| self := upd (self w); rng := rng w |}).

Definition random_random : M float :=
  fun w => (next_draw (rng w), {| self := self w; rng := advance 1 (rng w) |}).

Definition __init__ (world_size measurement_range
                     motion_noise measurement_noise : float) : Robot :=
  {| world_size := world_size;
     measurement_range := measurement_range;
     x := world_size / 2;
     y := world_size / 2;
     motion_noise := motion_noise;
     measurement_noise := measurement_noise;
     landmarks := [];
     num_landmarks := 0 |}.

#[local, warnings="-notation-overridden"]
Notation "v <- m ;; k" := (bind m (fun v => k))
  (at level 61, m at next level, right associativity).
#[local, warnings="-notation-overridden"]
Notation "m ;; k" := (bind m (fun _ => k))
  (at level 61, right associativity).

Definition _rand : M float :=
  u <- random_random ;;
  ret (u * 2 - 1).

(** [(x < 0.0 or x > self.world_size) or (y < 0.0 or y > self.world_size)];
    [a > b] on floats is [b < a]. *)
Definition out_of_world (px py ws : float) : bool :=
  ((px <? 0) || (ws <? px)) || ((py <? 0) || (ws <? py)).

Definition move (dx dy : float) : M bool :=
  x0 <- attr x ;;
  r1 <- _rand ;;
  mn1 <- attr motion_noise ;;
  let x' := x0 + dx + r1 * mn1 in
  y0 <- attr y ;;
  r2 <- _rand ;;
  mn2 <- attr motion_noise ;;
  let y' := y0 + dy + r2 * mn2 in
  ws <- attr world_size ;;
  if out_of_world x' y' ws then
    ret false
  else
    assign (with_x x') ;;
    assign (with_y y') ;;
    ret true.

(** The candidate position [move dx dy] computes before its boundary
    test. *)
Definition candidate_x (w : World) (dx : float) : float :=
  x (self w) + dx
  + (draws (rng w) (cursor (rng w)) * 2 - 1) * motion_noise (self w).

Definition candidate_y (w : World) (dy : float) : float :=
  y (self w) + dy
  + (draws (rng w) (S (cursor (rng w))) * 2 - 1) * motion_noise (self w).

(** The inclusive-bounds condition, with the comparisons of floats. *)
Definition in_world (ws px py : float) : Prop :=
  ((0 <=? px) = true /\ (px <=? ws) = true)
  /\ ((0 <=? py) = true /\ (py <=? ws) = true).

(** [Robot(ws, mr, mn, sn)] with a generator that returns the values of
    [l] and then one half. *)
Definition fresh (ws mr mn sn : float) (l : list float) : World :=
  {| self := __init__ ws mr mn sn;
     rng := {| draws := fun i => nth i l 0.5; cursor := 0 |} |}.

End Binary64.

(** Strictly ascending lists of indices. *)
Definition ascending (l : list Z) : Prop := StronglySorted Z.lt l.

(** * Lemmas *)

Lemma Qlt_bool_iff (a b : Q) : Qlt_bool a b = true <-> a < b.
Proof.
  unfold Qlt_bool. rewrite negb_true_iff.
  split; intro H.
  - apply Qnot_le_lt. intro Hle. apply Qle_bool_iff in Hle. congruence.
  - destruct (Qle_bool b a) eqn:E; [|reflexivity].
    apply Qle_bool_iff in E. exfalso. apply (Qlt_not_le _ _ H E).
Qed.

Lemma Qlt_bool_false_iff (a b : Q) : Qlt_bool a b = false <-> b <= a.
Proof.
  unfold Qlt_bool. rewrite negb_false_iff. apply Qle_bool_iff.
Qed.

Lemma out_of_world_false_iff (px py ws : Q) :
  out_of_world px py ws = false <-> in_world ws px py.
Proof.
  unfold out_of_world, in_world.
  rewrite !orb_false_iff, !Qlt_bool_false_iff. tauto.
Qed.

Lemma advance_advance (j k : nat) (g : Rng) :
  advance j (advance k g) = advance (j + k) g.
Proof.
  unfold advance; simpl. f_equal. lia.
Qed.

(** [move], one branch per outcome of the boundary test. *)
Lemma move_unfold (dx dy : Q) (w : World) :
  move dx dy w =
  if out_of_world (candidate_x w dx) (candidate_y w dy) (world_size (self w))
  then (false, {| self := self w; rng := advance 2 (rng w) |})
  else (true, {| self := with_y (candidate_y w dy)
                           (with_x (candidate_x w dx) (self w));
                 rng := advance 2 (rng w) |}).
Proof.
  destruct w as [r g].
  cbv beta iota zeta delta [move bind attr _rand random_random ret assign].
  unfold candidate_x, candidate_y, noise_at, next_draw; cbn [self rng].
  cbn [advance cursor draws Nat.add].
  destruct (out_of_world _ _ _); reflexivity.
Qed.

Lemma move_true_iff (dx dy : Q) (w : World) :
  fst (move dx dy w) = true
  <-> in_world (world_size (self w)) (candidate_x w dx) (candidate_y w dy).
Proof.
  rewrite move_unfold.
  destruct (out_of_world _ _ _) eqn:E; cbn [fst].
  - split; [discriminate|].
    intro Hin. apply out_of_world_false_iff in Hin. congruence.
  - apply out_of_world_false_iff in E. tauto.
Qed.

(** The sensing loop: it appends [observe] to its accumulator, leaves
    [self] alone and consumes two draws per item. *)
Lemma sense_loop_spec (all : bool) (items : list (Z * Landmark)) :
  forall (acc : list Measurement) (w : World),
    sense_loop all items acc w =
    (acc ++ observe (self w) all (draws (rng w)) (cursor (rng w)) items,
     {| self := self w; rng := advance (2 * length items) (rng w) |}).
Proof.
  induction items as [|[index [lx ly]] rest IH]; intros acc [r g].
  - simpl. unfold ret. rewrite app_nil_r. destruct g; reflexivity.
  - cbn [sense_loop].
    cbv beta iota zeta delta [bind attr _rand random_random ret].
    rewrite IH. cbn [self rng].
    rewrite !advance_advance.
    f_equal; [|f_equal; f_equal; cbn [length]; lia].
    cbn [observe].
    unfold noise_at, next_draw; cbn [advance cursor draws Nat.add].
    destruct (all || _); [rewrite <- app_assoc|]; reflexivity.
Qed.

Lemma enumerate_from_length {A : Type} (l : list A) :
  forall i : Z, length (enumerate_from i l) = length l.
Proof.
  induction l as [|a l IH]; intro i; simpl; [reflexivity|].
  now rewrite IH.
Qed.

Lemma sense_unfold (w : World) :
  sense w =
  (observe (self w) (Qeq_bool (measurement_range (self w)) (-1))
     (draws (rng w)) (cursor (rng w)) (enumerate (landmarks (self w))),
   {| self := self w;
      rng := advance (2 * length (landmarks (self w))) (rng w) |}).
Proof.
  unfold sense, bind, attr.
  rewrite sense_loop_spec. cbn [app].
  unfold enumerate. now rewrite enumerate_from_length.
Qed.

(** The placement loop: it appends [placed] to [self.landmarks], touches
    no other attribute and consumes two draws per landmark. *)
Lemma make_landmarks_loop_spec (k : nat) :
  forall w : World,
    make_landmarks_loop k w =
    (tt,
     {| self := with_landmarks
                  (landmarks (self w)
                   ++ placed (world_size (self w)) (draws (rng w))
                        (cursor (rng w)) k)
                  (self w);
        rng := advance (2 * k) (rng w) |}).
Proof.
  induction k as [|k IH]; intros [r g].
  - cbn. rewrite app_nil_r. destruct r, g; reflexivity.
  - cbn [make_landmarks_loop].
    cbv beta iota zeta delta [bind attr random_random ret assign].
    rewrite IH. cbn [self rng].
    rewrite !advance_advance.
    f_equal. f_equal; [|f_equal; lia].
    unfold with_landmarks; cbn [world_size landmarks placed].
    unfold next_draw; cbn [advance cursor draws Nat.add].
    now rewrite <- app_assoc.
Qed.

Lemma make_landmarks_unfold (n : Z) (w : World) :
  make_landmarks n w =
  (tt,
   {| self := with_num_landmarks n
                (with_landmarks
                   (placed (world_size (self w)) (draws (rng w))
                      (cursor (rng w)) (Z.to_nat n))
                   (self w));
      rng := advance (2 * Z.to_nat n) (rng w) |}).
Proof.
  unfold make_landmarks.
  cbv beta iota zeta delta [bind assign].
  rewrite make_landmarks_loop_spec. reflexivity.
Qed.

Lemma placed_length (ws : Q) (d : nat -> Q) (k : nat) :
  forall c : nat, length (placed ws d c k) = k.
Proof.
  induction k as [|k IH]; intro c; simpl; [reflexivity|].
  now rewrite IH.
Qed.

Lemma placed_nth (ws : Q) (d : nat -> Q) (k : nat) :
  forall (c i : nat), (i < k)%nat ->
    nth_error (placed ws d c k) i =
    Some (py_round (d (c + 2 * i)%nat * ws),
          py_round (d (c + 2 * i + 1)%nat * ws)).
Proof.
  induction k as [|k IH]; intros c i Hi; [lia|].
  destruct i as [|i]; cbn [placed nth_error].
  - replace (c + 2 * 0)%nat with c by lia.
    replace (c + 1)%nat with (S c) by lia. reflexivity.
  - rewrite IH by lia.
    replace (c + 2 * S i)%nat with (S (S c) + 2 * i)%nat by lia.
    reflexivity.
Qed.

(** ** The invariant of a robot's lifetime *)

Lemma reachable_landmarks_counted (w : World) :
  reachable w -> landmarks_counted (self w).
Proof.
  induction 1 as [ws mr mn sn g | w dx dy _ IH | w _ IH | w n _ IH].
  - reflexivity.
  - rewrite move_unfold.
    destruct (out_of_world _ _ _); cbn [snd self]; exact IH.
  - rewrite sense_unfold. cbn [snd self]. exact IH.
  - rewrite make_landmarks_unfold. cbn [snd self].
    unfold landmarks_counted; cbn [landmarks num_landmarks with_num_landmarks
                                    with_landmarks].
    rewrite placed_length. lia.
Qed.

(** ** Indices of the observations *)

Lemma enumerate_from_fst {A : Type} (l : list A) :
  forall i : Z,
    Forall (fun j => (i <= j < i + Z.of_nat (length l))%Z)
      (map fst (enumerate_from i l))
    /\ ascending (map fst (enumerate_from i l)).
Proof.
  induction l as [|a l IH]; intro i; cbn [enumerate_from map length fst].
  - split; constructor.
  - destruct (IH (i + 1)%Z) as [Hb Hs]. split.
    + constructor; [lia|].
      eapply Forall_impl; [|exact Hb]. cbv beta. intros j Hj. lia.
    + constructor; [exact Hs|].
      eapply Forall_impl; [|exact Hb]. cbv beta. intros j Hj. lia.
Qed.

(** The indices [observe] reports are picked, in order, from the indices
    of its items. *)
Lemma observe_indices_Forall (r : Robot) (all : bool) (d : nat -> Q)
    (P : Z -> Prop) (items : list (Z * Landmark)) :
  forall c : nat,
    Forall P (map fst items) ->
    Forall P (map m_index (observe r all d c items)).
Proof.
  induction items as [|[index [lx ly]] rest IH]; intros c HP.
  - constructor.
  - cbn [map fst] in HP. inversion HP as [|? ? Hhd Htl]; subst.
    cbn [observe]. destruct (all || _); cbn [app map].
    + constructor; [exact Hhd|]. apply IH; exact Htl.
    + apply IH; exact Htl.
Qed.

Lemma observe_indices_ascending (r : Robot) (all : bool) (d : nat -> Q)
    (items : list (Z * Landmark)) :
  forall c : nat,
    ascending (map fst items) ->
    ascending (map m_index (observe r all d c items)).
Proof.
  induction items as [|[index [lx ly]] rest IH]; intros c Hs.
  - constructor.
  - cbn [map fst] in Hs. inversion Hs as [|? ? Hs' Hlt]; subst.
    cbn [observe]. destruct (all || _); cbn [app map].
    + constructor; [apply IH; exact Hs'|].
      apply observe_indices_Forall; exact Hlt.
    + apply IH; exact Hs'.
Qed.

Lemma ascending_NoDup (l : list Z) : ascending l -> NoDup l.
Proof.
  induction 1 as [|a l _ IH Hlt]; constructor; [|exact IH].
  intro Hin. rewrite Forall_forall in Hlt.
  specialize (Hlt a Hin). lia.
Qed.

Lemma observe_all (r : Robot) (d : nat -> Q) (items : list (Z * Landmark)) :
  forall c : nat,
    map m_index (observe r true d c items) = map fst items.
Proof.
  induction items as [|[index [lx ly]] rest IH]; intro c; [reflexivity|].
  cbn [observe orb app map]. now rewrite IH.
Qed.

(** Membership in the result of the sensing loop: the entries are the
    readings of the landmarks that pass the test, the landmark of
    position [i] being read with the draws [c + 2 i] and [c + 2 i + 1]. *)
Lemma observe_In (r : Robot) (all : bool) (d : nat -> Q)
    (l : list Landmark) :
  forall (s : Z) (c : nat) (m : Measurement),
    In m (observe r all d c (enumerate_from s l))
    <-> exists (i : nat) (lx ly : Z),
          nth_error l i = Some (lx, ly)
          /\ m = reading r d (c + 2 * i) (s + Z.of_nat i) lx ly
          /\ passes r all m = true.
Proof.
  induction l as [|[lx ly] l IH]; intros s c m.
  - cbn. split; [intros []|].
    intros (i & lx & ly & H & _). destruct i; discriminate.
  - cbn [enumerate_from observe]. rewrite in_app_iff, IH. split.
    + intros [Hhd | (i & lx' & ly' & Hnth & Hm & Hp)].
      * exists 0%nat, lx, ly. split; [reflexivity|].
        replace (c + 2 * 0)%nat with c by lia.
        replace (s + Z.of_nat 0)%Z with s by lia.
        unfold passes, reading; cbn [m_dx m_dy fst snd].
        destruct (all || _) eqn:E; [|destruct Hhd].
        destruct Hhd as [<- | []].
        cbn [m_dx m_dy fst snd]. split; [reflexivity|exact E].
      * exists (S i), lx', ly'. split; [exact Hnth|].
        replace (c + 2 * S i)%nat with (S (S c) + 2 * i)%nat by lia.
        replace (s + Z.of_nat (S i))%Z with (s + 1 + Z.of_nat i)%Z by lia.
        split; assumption.
    + intros ([|i] & lx' & ly' & Hnth & Hm & Hp).
      * left. cbn [nth_error] in Hnth. inversion Hnth; subst lx' ly'.
        replace (c + 2 * 0)%nat with c in Hm by lia.
        replace (s + Z.of_nat 0)%Z with s in Hm by lia.
        subst m. unfold passes, reading in Hp; cbn [m_dx m_dy fst snd] in Hp.
        rewrite Hp. left. reflexivity.
      * right. exists i, lx', ly'. split; [exact Hnth|].
        replace (c + 2 * S i)%nat with (S (S c) + 2 * i)%nat in Hm by lia.
        replace (s + Z.of_nat (S i))%Z with (s + 1 + Z.of_nat i)%Z in Hm
          by lia.
        split; assumption.
Qed.

(** ** Comparisons of binary64 floats *)

Import PrimFloat.

(** Swapping the arguments of a comparison reverses its result; two
    floats do not compare when one of them is a NaN. *)
Lemma SFcompare_antisym (a b : SpecFloat.spec_float) :
  SpecFloat.SFcompare b a = option_map CompOpp (SpecFloat.SFcompare a b).
Proof.
  destruct a as [sa | sa | | sa ma ea], b as [sb | sb | | sb mb eb];
    try destruct sa; try destruct sb; try reflexivity;
    cbn [SpecFloat.SFcompare option_map]; f_equal;
    rewrite (Z.compare_antisym ea eb);
    change (Pos.compare_cont Eq mb ma) with (Pos.compare mb ma);
    change (Pos.compare_cont Eq ma mb) with (Pos.compare ma mb);
    rewrite (Pos.compare_antisym ma mb);
    destruct (Z.compare ea eb); cbn [CompOpp]; try reflexivity;
    destruct (Pos.compare ma mb); reflexivity.
Qed.

Lemma is_nan_false (a : PrimFloat.float) :
  PrimFloat.is_nan a = false -> FloatOps.Prim2SF a <> SpecFloat.S754_nan.
Proof.
  unfold PrimFloat.is_nan. rewrite FloatAxioms.eqb_spec.
  intros H E. rewrite E in H. discriminate.
Qed.

Lemma is_nan_true (a : PrimFloat.float) :
  PrimFloat.is_nan a = true -> FloatOps.Prim2SF a = SpecFloat.S754_nan.
Proof.
  unfold PrimFloat.is_nan. rewrite FloatAxioms.eqb_spec.
  destruct (FloatOps.Prim2SF a) as [s | s | | s m e]; try reflexivity;
    unfold SpecFloat.SFeqb; cbn [SpecFloat.SFcompare].
  - discriminate.
  - destruct s; discriminate.
  - destruct s; rewrite Z.compare_refl, Pos.compare_cont_refl; discriminate.
Qed.

(** On floats that are not NaN, [a < b] fails exactly when [b <= a]. *)
Lemma float_ltb_false_iff (a b : PrimFloat.float) :
  PrimFloat.is_nan a = false -> PrimFloat.is_nan b = false ->
  (PrimFloat.ltb a b = false <-> PrimFloat.leb b a = true).
Proof.
  intros Ha Hb. apply is_nan_false in Ha, Hb.
  rewrite FloatAxioms.ltb_spec, FloatAxioms.leb_spec.
  unfold SpecFloat.SFltb, SpecFloat.SFleb.
  rewrite (SFcompare_antisym (FloatOps.Prim2SF a) (FloatOps.Prim2SF b)).
  destruct (FloatOps.Prim2SF a) as [sa | sa | | sa ma ea],
           (FloatOps.Prim2SF b) as [sb | sb | | sb mb eb];
    try congruence;
    destruct (SpecFloat.SFcompare _ _) as [[| |]|] eqn:E;
    cbn [option_map CompOpp];
    split; intro; try reflexivity; try discriminate.
  all: try (destruct sa; discriminate).
  all: try (destruct sb; discriminate).
  all: try (destruct sa, sb; discriminate).
Qed.

(** [Binary64.move], one branch per outcome of the boundary test. *)
Lemma binary64_move_unfold (dx dy : PrimFloat.float) (w : Binary64.World) :
  Binary64.move dx dy w =
  if Binary64.out_of_world (Binary64.candidate_x w dx)
       (Binary64.candidate_y w dy) (Binary64.world_size (Binary64.self w))
  then (false,
        {| Binary64.self := Binary64.self w;
           Binary64.rng := Binary64.advance 2 (Binary64.rng w) |})
  else (true,
        {| Binary64.self :=
             Binary64.with_y (Binary64.candidate_y w dy)
               (Binary64.with_x (Binary64.candidate_x w dx) (Binary64.self w));
           Binary64.rng := Binary64.advance 2 (Binary64.rng w) |}).
Proof.
  destruct w as [r g].
  cbv beta iota zeta delta
    [Binary64.move Binary64.bind Binary64.attr Binary64._rand
     Binary64.random_random Binary64.ret Binary64.assign].
  unfold Binary64.candidate_x, Binary64.candidate_y, Binary64.next_draw;
    cbn [Binary64.self Binary64.rng].
  cbn [Binary64.advance Binary64.cursor Binary64.draws Nat.add].
  destruct (Binary64.out_of_world _ _ _); reflexivity.
Qed.

(** For a candidate and a world size that are not NaN, the boundary test
    fails exactly on the inclusive bounds. *)
Lemma binary64_out_of_world_false_iff (px py ws : PrimFloat.float) :
  PrimFloat.is_nan px = false -> PrimFloat.is_nan py = false ->
  PrimFloat.is_nan ws = false ->
  (Binary64.out_of_world px py ws = false <-> Binary64.in_world ws px py).
Proof.
  intros Hx Hy Hw.
  assert (H0 : PrimFloat.is_nan 0%float = false) by reflexivity.
  unfold Binary64.out_of_world, Binary64.in_world.
  rewrite !orb_false_iff.
  rewrite (float_ltb_false_iff px 0%float Hx H0).
  rewrite (float_ltb_false_iff ws px Hw Hx).
  rewrite (float_ltb_false_iff py 0%float Hy H0).
  rewrite (float_ltb_false_iff ws py Hw Hy).
  reflexivity.
Qed.

(** * The sample worlds, evaluated *)

Example sample_world_landmarks :
  landmarks (self (sample_world 30 1 1 3))
  = [(10, 90); (50, 25); (75, 12)]%Z.
Proof. vm_compute. reflexivity. Qed.

Example sample_world_sense_indices :
  map m_index (fst (sense (sample_world 30 0 0 3))) = [1%Z].
Proof. vm_compute. reflexivity. Qed.

Example sample_world_sense_wide :
  map m_index (fst (sense (sample_world 60 1 1 3))) = [0%Z; 1%Z; 2%Z].
Proof. vm_compute. reflexivity. Qed.

(** * Theorems *)

(** ** Sensing with unlimited range *)

(** C1. When [measurement_range == -1], [sense()] returns exactly one
    triple per landmark, whatever the landmarks and the draws: the list is
    as long as [self.landmarks] and its indices are those of
    [enumerate(self.landmarks)], in order.  The unlimited-range flag
    bypasses both axis tests. *)
Theorem sense_unlimited_range_full_coverage (w : World) :
  measurement_range (self w) == -1 ->
  length (fst (sense w)) = length (landmarks (self w))
  /\ map m_index (fst (sense w)) = map fst (enumerate (landmarks (self w))).
Proof.
  intro Hmr. rewrite sense_unfold. cbn [fst].
  apply Qeq_eq_bool in Hmr. rewrite Hmr.
  assert (Hidx := observe_all (self w) (draws (rng w))
                    (enumerate (landmarks (self w))) (cursor (rng w))).
  split; [|exact Hidx].
  apply (f_equal (@length Z)) in Hidx.
  rewrite !length_map in Hidx. rewrite Hidx.
  apply enumerate_from_length.
Qed.

Lemma sense_unlimited_range_full_coverage_witness :
  length (fst (sense (sample_world (-1) 1 1 3)))
  = length (landmarks (self (sample_world (-1) 1 1 3)))
  /\ map m_index (fst (sense (sample_world (-1) 1 1 3)))
     = map fst (enumerate (landmarks (self (sample_world (-1) 1 1 3)))).
Proof.
  apply (sense_unlimited_range_full_coverage (sample_world (-1) 1 1 3)).
  vm_compute. reflexivity.
Defined.

(** ** Moving *)

(** C2, amended.  On binary64 floats: when neither the candidate
    coordinates nor [world_size] are NaN, [move(dx, dy)] returns [True]
    exactly when the candidate satisfies the inclusive bounds
    [0 <= x' <= world_size] and [0 <= y' <= world_size], and after an
    accepted move the position of the robot satisfies these bounds. *)
Theorem move_accepted_iff_in_world
    (dx dy : PrimFloat.float) (w : Binary64.World) :
  PrimFloat.is_nan (Binary64.candidate_x w dx) = false ->
  PrimFloat.is_nan (Binary64.candidate_y w dy) = false ->
  PrimFloat.is_nan (Binary64.world_size (Binary64.self w)) = false ->
  (fst (Binary64.move dx dy w) = true
   <-> Binary64.in_world (Binary64.world_size (Binary64.self w))
         (Binary64.candidate_x w dx) (Binary64.candidate_y w dy))
  /\ (fst (Binary64.move dx dy w) = true ->
      Binary64.in_world
        (Binary64.world_size (Binary64.self (snd (Binary64.move dx dy w))))
        (Binary64.x (Binary64.self (snd (Binary64.move dx dy w))))
        (Binary64.y (Binary64.self (snd (Binary64.move dx dy w))))).
Proof.
  intros Hx Hy Hw.
  pose proof (binary64_out_of_world_false_iff _ _ _ Hx Hy Hw) as Hin.
  rewrite binary64_move_unfold.
  destruct (Binary64.out_of_world _ _ _); cbn [fst snd Binary64.self].
  - split; [|discriminate].
    split; [discriminate|]. intro H. apply Hin in H. discriminate.
  - split; [split; [intros _; apply Hin; reflexivity | reflexivity]|].
    intros _. apply Hin. reflexivity.
Qed.

Lemma move_accepted_iff_in_world_witness :
  (fst (Binary64.move 10 (-5) (Binary64.fresh 100 30 1 1 [0.25; 0.75]%float))
   = true
   <-> Binary64.in_world
         (Binary64.world_size
            (Binary64.self (Binary64.fresh 100 30 1 1 [0.25; 0.75]%float)))
         (Binary64.candidate_x
            (Binary64.fresh 100 30 1 1 [0.25; 0.75]%float) 10)
         (Binary64.candidate_y
            (Binary64.fresh 100 30 1 1 [0.25; 0.75]%float) (-5)))
  /\ (fst (Binary64.move 10 (-5)
             (Binary64.fresh 100 30 1 1 [0.25; 0.75]%float)) = true ->
      Binary64.in_world
        (Binary64.world_size
           (Binary64.self
              (snd (Binary64.move 10 (-5)
                      (Binary64.fresh 100 30 1 1 [0.25; 0.75]%float)))))
        (Binary64.x
           (Binary64.self
              (snd (Binary64.move 10 (-5)
                      (Binary64.fresh 100 30 1 1 [0.25; 0.75]%float)))))
        (Binary64.y
           (Binary64.self
              (snd (Binary64.move 10 (-5)
                      (Binary64.fresh 100 30 1 1 [0.25; 0.75]%float)))))).
Proof.
  apply (move_accepted_iff_in_world 10 (-5)
           (Binary64.fresh 100 30 1 1 [0.25; 0.75]%float)).
  - vm_compute. reflexivity.
  - vm_compute. reflexivity.
  - vm_compute. reflexivity.
Defined.

(** The claim as first stated fails on a NaN: [x < 0.0] and
    [x > world_size] are both false of a NaN candidate, so [move(nan, 0)]
    is accepted and the stored [x] is a NaN, which is not within
    [0 <= x <= world_size]. *)
Lemma move_nan_counterexample :
  fst (Binary64.move PrimFloat.nan 0
         (Binary64.fresh 100 30 1 1 [0.5; 0.5]%float)) = true
  /\ PrimFloat.is_nan
       (Binary64.x
          (Binary64.self
             (snd (Binary64.move PrimFloat.nan 0
                     (Binary64.fresh 100 30 1 1 [0.5; 0.5]%float))))) = true
  /\ ~ Binary64.in_world
        (Binary64.world_size
           (Binary64.self
              (snd (Binary64.move PrimFloat.nan 0
                      (Binary64.fresh 100 30 1 1 [0.5; 0.5]%float)))))
        (Binary64.x
           (Binary64.self
              (snd (Binary64.move PrimFloat.nan 0
                      (Binary64.fresh 100 30 1 1 [0.5; 0.5]%float)))))
        (Binary64.y
           (Binary64.self
              (snd (Binary64.move PrimFloat.nan 0
                      (Binary64.fresh 100 30 1 1 [0.5; 0.5]%float))))).
Proof.
  split; [vm_compute; reflexivity|]. split; [vm_compute; reflexivity|].
  intros [[H _] _]. vm_compute in H. discriminate.
Qed.

(** C3. A rejected move ([move] returns [False]) leaves the robot as it
    was, in particular its position [(x, y)]; an accepted move sets both
    coordinates, [x] to the candidate [x'] and [y] to the candidate [y'],
    and no other attribute.  There is no partial update. *)
Theorem move_no_partial_update (dx dy : Q) (w : World) :
  (fst (move dx dy w) = false -> self (snd (move dx dy w)) = self w)
  /\ (fst (move dx dy w) = true ->
      self (snd (move dx dy w))
      = with_y (candidate_y w dy) (with_x (candidate_x w dx) (self w))
      /\ x (self (snd (move dx dy w))) = candidate_x w dx
      /\ y (self (snd (move dx dy w))) = candidate_y w dy).
Proof.
  rewrite move_unfold.
  destruct (out_of_world _ _ _); cbn [fst snd self].
  - split; [reflexivity|discriminate].
  - split; [discriminate|]. intros _. repeat split.
Qed.

(** ** Consumption of the noise source *)

(** C6. Every call of [move] consumes exactly two draws, whether the move
    is accepted or rejected, and every call of [sense] consumes exactly two
    draws per landmark, whether the landmark is observable or not; neither
    changes the values still to come. *)
Theorem draws_consumed (dx dy : Q) (w : World) :
  (cursor (rng (snd (move dx dy w))) = cursor (rng w) + 2
   /\ draws (rng (snd (move dx dy w))) = draws (rng w))%nat
  /\ (cursor (rng (snd (sense w)))
      = cursor (rng w) + 2 * length (landmarks (self w))
      /\ draws (rng (snd (sense w))) = draws (rng w))%nat.
Proof.
  rewrite move_unfold, sense_unfold.
  destruct (out_of_world _ _ _); cbn [snd rng advance cursor draws];
    repeat split; lia.
Qed.

(** ** Sensing reads, it does not write *)

(** C7. [sense()] changes no attribute of the robot: position, landmarks,
    [num_landmarks] and the parameters are after the call what they were
    before.  Its only effect is on the noise source, whose cursor moves
    forward while its values stay the same. *)
Theorem sense_preserves_robot (w : World) :
  self (snd (sense w)) = self w
  /\ draws (rng (snd (sense w))) = draws (rng w)
  /\ (cursor (rng w) <= cursor (rng (snd (sense w))))%nat.
Proof.
  rewrite sense_unfold. cbn [snd self rng advance cursor draws].
  repeat split. lia.
Qed.

(** ** Order of the observations *)

(** C8. For a robot driven through its methods, the indices of the list
    [sense()] returns are strictly ascending, lie in
    [[0, num_landmarks)] and are pairwise distinct; and the entries of the
    list are exactly the readings of the observable landmarks: the
    landmark of index [i], read with the draws numbered [2 i] and
    [2 i + 1] after the cursor, has its entry in the list when, and only
    when, that reading passes the range test.  So each observable
    landmark appears exactly once, and no other entry does. *)
Theorem sense_indices_ordered (w : World) :
  reachable w ->
  ascending (map m_index (fst (sense w)))
  /\ Forall (fun i => (0 <= i < num_landmarks (self w))%Z)
       (map m_index (fst (sense w)))
  /\ NoDup (map m_index (fst (sense w)))
  /\ (forall m : Measurement,
        In m (fst (sense w))
        <-> exists (i : nat) (lx ly : Z),
              nth_error (landmarks (self w)) i = Some (lx, ly)
              /\ m = reading (self w) (draws (rng w))
                       (cursor (rng w) + 2 * i) (Z.of_nat i) lx ly
              /\ observable (self w) m = true).
Proof.
  intro Hw. apply reachable_landmarks_counted in Hw.
  unfold landmarks_counted in Hw.
  rewrite sense_unfold. cbn [fst].
  destruct (enumerate_from_fst (landmarks (self w)) 0) as [Hb Hs].
  assert (Ha : ascending
                 (map m_index
                    (observe (self w)
                       (Qeq_bool (measurement_range (self w)) (-1))
                       (draws (rng w)) (cursor (rng w))
                       (enumerate (landmarks (self w)))))).
  { apply observe_indices_ascending. exact Hs. }
  split; [exact Ha|]. split; [|split; [apply ascending_NoDup; exact Ha|]].
  - apply observe_indices_Forall.
    eapply Forall_impl; [|exact Hb]. cbv beta. intros i Hi. lia.
  - intro m.
    exact (observe_In (self w) (Qeq_bool (measurement_range (self w)) (-1))
             (draws (rng w)) (landmarks (self w)) 0 (cursor (rng w)) m).
Qed.

Lemma sense_indices_ordered_witness :
  ascending (map m_index (fst (sense (sample_world 60 1 1 3))))
  /\ Forall (fun i => (0 <= i < num_landmarks (self (sample_world 60 1 1 3)))%Z)
       (map m_index (fst (sense (sample_world 60 1 1 3))))
  /\ NoDup (map m_index (fst (sense (sample_world 60 1 1 3))))
  /\ (forall m : Measurement,
        In m (fst (sense (sample_world 60 1 1 3)))
        <-> exists (i : nat) (lx ly : Z),
              nth_error (landmarks (self (sample_world 60 1 1 3))) i
              = Some (lx, ly)
              /\ m = reading (self (sample_world 60 1 1 3))
                       (draws (rng (sample_world 60 1 1 3)))
                       (cursor (rng (sample_world 60 1 1 3)) + 2 * i)
                       (Z.of_nat i) lx ly
              /\ observable (self (sample_world 60 1 1 3)) m = true).
Proof.
  apply (sense_indices_ordered (sample_world 60 1 1 3)).
  unfold sample_world, fresh_world. apply reach_make_landmarks. apply reach_init.
Defined.

(** ** Negative ranges other than the sentinel *)

(** C10. When [measurement_range] is negative and is not [-1], [sense()]
    returns the empty list, whatever the landmarks and the draws. *)
Theorem sense_negative_range_empty (w : World) :
  measurement_range (self w) < 0 ->
  ~ measurement_range (self w) == -1 ->
  fst (sense w) = [].
Proof.
  intros Hneg Hsent. rewrite sense_unfold. cbn [fst].
  destruct (Qeq_bool (measurement_range (self w)) (-1)) eqn:E.
  { apply Qeq_bool_iff in E. contradiction. }
  generalize (cursor (rng w)).
  induction (enumerate (landmarks (self w))) as [|[index [lx ly]] rest IH];
    intro c; [reflexivity|].
  cbn [observe orb]. rewrite IH.
  match goal with |- context [Qle_bool (Qabs ?a) ?b && _] =>
    destruct (Qle_bool (Qabs a) b) eqn:Ea end; [|reflexivity].
  apply Qle_bool_iff in Ea. exfalso.
  match type of Ea with Qabs ?a <= _ => pose proof (Qabs_nonneg a) end.
  lra.
Qed.

Lemma sense_negative_range_empty_witness :
  fst (sense (sample_world (-2) 1 1 3)) = [].
Proof.
  apply (sense_negative_range_empty (sample_world (-2) 1 1 3)).
  - vm_compute. reflexivity.
  - vm_compute. discriminate.
Defined.

(** ** Without noise *)

Lemma candidate_noise_free (dx dy : Q) (w : World) :
  motion_noise (self w) == 0 ->
  candidate_x w dx == x (self w) + dx /\ candidate_y w dy == y (self w) + dy.
Proof.
  intro Hmn. unfold candidate_x, candidate_y.
  rewrite Hmn. split; ring.
Qed.

Lemma observe_noise_free (r : Robot) (d : nat -> Q)
    (items : list (Z * Landmark)) :
  measurement_noise r == 0 ->
  forall c : nat,
    Forall2 Meq
      (observe r (Qeq_bool (measurement_range r) (-1)) d c items)
      (filter (observable r) (map (exact_measurement r) items)).
Proof.
  intro Hsn.
  induction items as [|[index [lx ly]] rest IH]; intro c; [constructor|].
  cbn [observe map filter].
  unfold observable at 1, exact_measurement at 1 2.
  cbn [fst snd m_dx m_dy].
  set (ex := inject_Z lx - x r). set (ey := inject_Z ly - y r).
  assert (Hx : ex + noise_at d c * measurement_noise r == ex)
    by (rewrite Hsn; ring).
  assert (Hy : ey + noise_at d (S c) * measurement_noise r == ey)
    by (rewrite Hsn; ring).
  rewrite Hx at 1. rewrite Hy at 1.
  destruct (Qeq_bool (measurement_range r) (-1)
            || Qle_bool (Qabs ex) (measurement_range r)
               && Qle_bool (Qabs ey) (measurement_range r)); cbn [app].
  - constructor; [|apply IH].
    unfold Meq, exact_measurement; cbn [m_index m_dx m_dy fst snd].
    repeat split; assumption.
  - apply IH.
Qed.



(** ** Placing landmarks *)

Lemma seeded_unit_draws (l : list Q) :
  Forall (fun u => 0 <= u /\ u < 1) l -> unit_draws (seeded l).
Proof.
  intros Hl i. unfold seeded; cbn [draws]. revert i.
  induction Hl as [|u l Hu _ IH]; intros [|i]; cbn [nth];
    try (split; [discriminate|reflexivity]).
  - exact Hu.
  - apply IH.
Qed.

Lemma sample_draws_unit : unit_draws (seeded sample_draws).
Proof.
  apply seeded_unit_draws.
  repeat constructor; discriminate.
Qed.


Lemma py_round_cases (v : Q) :
  py_round v = Qfloor v
  \/ (py_round v = (Qfloor v + 1)%Z /\ 1 # 2 <= v - inject_Z (Qfloor v)).
Proof.
  unfold py_round.
  destruct (Qlt_bool (v - inject_Z (Qfloor v)) (1 # 2)) eqn:E1;
    [left; reflexivity|].
  apply Qlt_bool_false_iff in E1.
  destruct (Qlt_bool (1 # 2) (v - inject_Z (Qfloor v)));
    [right; split; [reflexivity|exact E1]|].
  destruct (Z.even (Qfloor v));
    [left; reflexivity | right; split; [reflexivity|exact E1]].
Qed.

Lemma py_round_nonneg (v : Q) : 0 <= v -> (0 <= py_round v)%Z.
Proof.
  intro Hv. apply Qfloor_resp_le in Hv. change (Qfloor 0) with 0%Z in Hv.
  destruct (py_round_cases v) as [-> | [-> _]]; lia.
Qed.

Lemma py_round_le_integer (v : Q) (k : Z) :
  v <= inject_Z k -> (py_round v <= k)%Z.
Proof.
  intro Hv. pose proof (Qfloor_le v) as Hf.
  destruct (py_round_cases v) as [-> | [-> Hhalf]].
  - rewrite Zle_Qle. lra.
  - assert (Hlt : inject_Z (Qfloor v) < inject_Z k) by lra.
    rewrite <- Zlt_Qlt in Hlt. lia.
Qed.





(** ** A move far out of the world *)

(** C9, amended.  For a robot standing at [x = 50] in a world of size
    [100] whose motion noise lies in [[0, 150)], [move(200, 0)] returns
    [False] and leaves the robot unchanged, whatever the draws in
    [[0, 1)]: the candidate [x'] is above [250 - 150]. *)
Theorem move_200_rejected (w : World) :
  world_size (self w) == 100 ->
  x (self w) == 50 ->
  0 <= motion_noise (self w) ->
  motion_noise (self w) < 150 ->
  unit_draws (rng w) ->
  fst (move 200 0 w) = false /\ self (snd (move 200 0 w)) = self w.
Proof.
  intros Hws Hx Hmn0 Hmn Hd.
  destruct (Hd (cursor (rng w))) as [Hlo _].
  assert (Hout : out_of_world (candidate_x w 200) (candidate_y w 0)
                   (world_size (self w)) = true).
  { unfold out_of_world.
    assert (Hlt : world_size (self w) < candidate_x w 200).
    { unfold candidate_x, noise_at.
      set (u := draws (rng w) (cursor (rng w))) in *.
      set (mn := motion_noise (self w)) in *.
      assert (Hp : 0 <= u * mn) by (apply Qmult_le_0_compat; assumption).
      assert (He : (u * 2 - 1) * mn == 2 * (u * mn) - mn) by ring.
      rewrite He. lra. }
    apply Qlt_bool_iff in Hlt. rewrite Hlt.
    now rewrite orb_true_r. }
  rewrite move_unfold, Hout. split; reflexivity.
Qed.

Lemma move_200_rejected_witness :
  fst (move 200 0 (sample_world 30 1 1 3)) = false
  /\ self (snd (move 200 0 (sample_world 30 1 1 3)))
     = self (sample_world 30 1 1 3).
Proof.
  apply (move_200_rejected (sample_world 30 1 1 3)).
  - vm_compute. reflexivity.
  - vm_compute. reflexivity.
  - vm_compute. discriminate.
  - vm_compute. reflexivity.
  - exact sample_draws_unit.
Defined.

(** With a motion noise of [160] the claim as first stated fails: a first
    draw of [0] pulls the candidate back to [x' = 90], inside the world,
    and the move is accepted. *)
Lemma move_200_counterexample :
  0 <= motion_noise (__init__ 100 30 160 1)
  /\ fst (move 200 0 {| self := __init__ 100 30 160 1;
                        rng := seeded [0; 1 # 2] |}) = true
  /\ x (self (snd (move 200 0 {| self := __init__ 100 30 160 1;
                                 rng := seeded [0; 1 # 2] |}))) == 90.
Proof.
  split; [vm_compute; discriminate|]. split; reflexivity.
Qed.

(** * Further properties of the methods *)

(** ** The noise sample *)




(** ** Where the robot is *)

Lemma init_centre (ws mr mn sn : Q) :
  0 <= ws ->
  in_world ws (x (__init__ ws mr mn sn)) (y (__init__ ws mr mn sn)).
Proof.
  intro H. unfold in_world; cbn [__init__ x y].
  assert (E : ws / 2 == ws * (1 # 2)) by (unfold Qdiv; reflexivity).
  rewrite E. repeat split; lra.
Qed.


Lemma move_world_size (dx dy : Q) (w : World) :
  world_size (self (snd (move dx dy w))) = world_size (self w).
Proof.
  rewrite move_unfold. destruct (out_of_world _ _ _); reflexivity.
Qed.

Lemma move_keeps_in_world (dx dy : Q) (w : World) :
  in_world (world_size (self w)) (x (self w)) (y (self w)) ->
  in_world (world_size (self (snd (move dx dy w))))
    (x (self (snd (move dx dy w)))) (y (self (snd (move dx dy w)))).
Proof.
  intro Hin. rewrite move_unfold.
  destruct (out_of_world _ _ _) eqn:E; cbn [snd self]; [exact Hin|].
  apply out_of_world_false_iff in E. exact E.
Qed.

Lemma reachable_in_world (w : World) :
  reachable w ->
  0 <= world_size (self w) ->
  in_world (world_size (self w)) (x (self w)) (y (self w)).
Proof.
  induction 1 as [ws mr mn sn g | w dx dy _ IH | w _ IH | w n _ IH];
    intro Hws.
  - cbn [self]. apply init_centre; exact Hws.
  - apply move_keeps_in_world. apply IH.
    rewrite move_world_size in Hws. exact Hws.
  - rewrite sense_unfold in Hws |- *. cbn [snd self] in Hws |- *.
    apply IH; exact Hws.
  - rewrite make_landmarks_unfold in Hws |- *. cbn [snd self] in Hws |- *.
    apply IH; exact Hws.
Qed.

(** X4. On binary64 floats: in a world of negative size, [move] returns
    [True] only when both candidate coordinates are NaN; every other move
    is rejected, and a rejected move leaves the robot as it was. *)
Theorem move_negative_world_rejected
    (dx dy : PrimFloat.float) (w : Binary64.World) :
  (Binary64.world_size (Binary64.self w) <? 0)%float = true ->
  fst (Binary64.move dx dy w)
  = PrimFloat.is_nan (Binary64.candidate_x w dx)
    && PrimFloat.is_nan (Binary64.candidate_y w dy)
  /\ (fst (Binary64.move dx dy w) = false ->
      Binary64.self (snd (Binary64.move dx dy w)) = Binary64.self w).
Proof.
  intro Hws. rewrite binary64_move_unfold.
  assert (Hone : forall p : PrimFloat.float,
             ((p <? 0) || (Binary64.world_size (Binary64.self w) <? p))%float
             = negb (PrimFloat.is_nan p)).
  { intro p. destruct (PrimFloat.is_nan p) eqn:Hp; cbn [negb].
    - apply is_nan_true in Hp.
      rewrite !FloatAxioms.ltb_spec, Hp.
      unfold SpecFloat.SFltb.
      destruct (FloatOps.Prim2SF (Binary64.world_size (Binary64.self w)))
        as [s | s | | s m e]; reflexivity.
    - apply is_nan_false in Hp.
      rewrite FloatAxioms.ltb_spec in Hws.
      rewrite !FloatAxioms.ltb_spec.
      change (FloatOps.Prim2SF 0) with (SpecFloat.S754_zero false) in *.
      unfold SpecFloat.SFltb in *.
      destruct (FloatOps.Prim2SF (Binary64.world_size (Binary64.self w)))
        as [sw | sw | | sw mw ew];
        destruct (FloatOps.Prim2SF p) as [sp | sp | | sp mp ep];
        try congruence;
        try destruct sw; try destruct sp;
        cbn [SpecFloat.SFcompare orb] in *; try reflexivity;
        discriminate. }
  unfold Binary64.out_of_world. rewrite !Hone.
  destruct (PrimFloat.is_nan (Binary64.candidate_x w dx)),
           (PrimFloat.is_nan (Binary64.candidate_y w dy));
    cbn [negb orb andb fst snd Binary64.self];
    split; try reflexivity; discriminate.
Qed.

Lemma move_negative_world_rejected_witness :
  fst (Binary64.move 0 0 (Binary64.fresh (-4) 30 1 1 []))
  = PrimFloat.is_nan (Binary64.candidate_x (Binary64.fresh (-4) 30 1 1 []) 0)
    && PrimFloat.is_nan (Binary64.candidate_y (Binary64.fresh (-4) 30 1 1 []) 0)
  /\ (fst (Binary64.move 0 0 (Binary64.fresh (-4) 30 1 1 [])) = false ->
      Binary64.self (snd (Binary64.move 0 0 (Binary64.fresh (-4) 30 1 1 [])))
      = Binary64.self (Binary64.fresh (-4) 30 1 1 [])).
Proof.
  apply (move_negative_world_rejected 0 0 (Binary64.fresh (-4) 30 1 1 [])).
  vm_compute. reflexivity.
Defined.

Example move_negative_world_sample :
  fst (Binary64.move 0 0 (Binary64.fresh (-4) 30 1 1 [])) = false
  /\ fst (Binary64.move PrimFloat.nan PrimFloat.nan
            (Binary64.fresh (-4) 30 1 1 [])) = true.
Proof. split; vm_compute; reflexivity. Qed.

(** ** What a list of measurements can contain *)

(** Every entry [observe] reports comes from one of its items, read with
    the noise of two draws. *)
Lemma observe_origin (r : Robot) (all : bool) (d : nat -> Q)
    (items : list (Z * Landmark)) :
  forall c : nat,
    Forall (fun m =>
              exists (lx ly : Z) (j : nat),
                In (m_index m, (lx, ly)) items
                /\ m_dx m = inject_Z lx - x r
                            + noise_at d j * measurement_noise r
                /\ m_dy m = inject_Z ly - y r
                            + noise_at d (S j) * measurement_noise r
                /\ (all = true
                    \/ (Qabs (m_dx m) <= measurement_range r
                        /\ Qabs (m_dy m) <= measurement_range r)))
      (observe r all d c items).
Proof.
  induction items as [|[index [lx ly]] rest IH]; intro c; [constructor|].
  cbn [observe].
  assert (Hrest : Forall (fun m =>
              exists (lx0 ly0 : Z) (j : nat),
                In (m_index m, (lx0, ly0)) ((index, (lx, ly)) :: rest)
                /\ m_dx m = inject_Z lx0 - x r
                            + noise_at d j * measurement_noise r
                /\ m_dy m = inject_Z ly0 - y r
                            + noise_at d (S j) * measurement_noise r
                /\ (all = true
                    \/ (Qabs (m_dx m) <= measurement_range r
                        /\ Qabs (m_dy m) <= measurement_range r)))
            (observe r all d (S (S c)) rest)).
  { eapply Forall_impl; [|apply IH]. cbv beta.
    intros m (lx0 & ly0 & j & Hin & H). exists lx0, ly0, j.
    split; [right; exact Hin | exact H]. }
  destruct (all || _) eqn:E; cbn [app]; [|exact Hrest].
  constructor; [|exact Hrest].
  exists lx, ly, c. cbn [m_index m_dx m_dy fst snd].
  split; [left; reflexivity|]. split; [reflexivity|]. split; [reflexivity|].
  apply orb_true_iff in E. destruct E as [E | E]; [left; exact E|].
  right. apply andb_true_iff in E. destruct E as [E1 E2].
  split; apply Qle_bool_iff; assumption.
Qed.

(** X7. With a measurement range other than the sentinel [-1], every
    measurement [sense()] returns is within range on both axes:
    [abs(dx) <= measurement_range] and [abs(dy) <= measurement_range]. *)
Theorem sense_reports_within_range (w : World) :
  ~ measurement_range (self w) == -1 ->
  Forall (fun m =>
            Qabs (m_dx m) <= measurement_range (self w)
            /\ Qabs (m_dy m) <= measurement_range (self w))
    (fst (sense w)).
Proof.
  intro Hmr. rewrite sense_unfold. cbn [fst].
  eapply Forall_impl; [|apply observe_origin]. cbv beta.
  intros m (_ & _ & _ & _ & _ & _ & [Hall | Hin]); [|exact Hin].
  apply Qeq_bool_iff in Hall. contradiction.
Qed.

Lemma sense_reports_within_range_witness :
  Forall (fun m =>
            Qabs (m_dx m) <= measurement_range (self (sample_world 30 1 1 3))
            /\ Qabs (m_dy m)
               <= measurement_range (self (sample_world 30 1 1 3)))
    (fst (sense (sample_world 30 1 1 3))).
Proof.
  apply (sense_reports_within_range (sample_world 30 1 1 3)).
  vm_compute. discriminate.
Defined.

Lemma observe_filter (r : Robot) (d : nat -> Q)
    (items : list (Z * Landmark)) :
  forall c : nat,
    observe r (Qeq_bool (measurement_range r) (-1)) d c items
    = filter (observable r)
        (observe (with_measurement_range (-1) r) true d c items).
Proof.
  induction items as [|[index [lx ly]] rest IH]; intro c; [reflexivity|].
  cbn [observe orb app filter].
  cbn [with_measurement_range x y measurement_noise].
  rewrite <- IH.
  unfold observable at 1; cbn [m_dx m_dy fst snd].
  destruct (Qeq_bool (measurement_range r) (-1) || _); reflexivity.
Qed.

(** X8. The measurement range only filters: [sense()] returns the
    measurements that the same robot with unlimited range would return on
    the same draws, restricted to those that pass the range test, in the
    same order and with the same values. *)
Theorem sense_filters_unlimited (w : World) :
  fst (sense w)
  = filter (observable (self w))
      (fst (sense {| self := with_measurement_range (-1) (self w);
                     rng := rng w |})).
Proof.
  rewrite !sense_unfold. cbn [fst self rng].
  cbn [with_measurement_range measurement_range landmarks].
  change (Qeq_bool (-1) (-1)) with true.
  apply observe_filter.
Qed.

Lemma observe_length (r : Robot) (all : bool) (d : nat -> Q)
    (items : list (Z * Landmark)) :
  forall c : nat, (length (observe r all d c items) <= length items)%nat.
Proof.
  induction items as [|[index [lx ly]] rest IH]; intro c; [constructor|].
  cbn [observe]. rewrite length_app. specialize (IH (S (S c))).
  destruct (all || _); cbn [length]; unfold Measurement, Landmark in *; lia.
Qed.

(** X9. [sense()] never returns more measurements than there are
    landmarks; without landmarks it returns the empty list. *)
Theorem sense_at_most_one_per_landmark (w : World) :
  (length (fst (sense w)) <= length (landmarks (self w)))%nat.
Proof.
  rewrite sense_unfold. cbn [fst].
  rewrite <- (enumerate_from_length (landmarks (self w)) 0).
  apply observe_length.
Qed.

(** ** More on placing landmarks *)

(** X12. [make_landmarks(n)] consumes exactly two draws per landmark it
    places, none when [n <= 0], changes neither the values still to come
    nor the position, and keeps the four parameters of the robot. *)
Theorem make_landmarks_draws (n : Z) (w : World) :
  cursor (rng (snd (make_landmarks n w)))
  = (cursor (rng w) + 2 * Z.to_nat n)%nat
  /\ draws (rng (snd (make_landmarks n w))) = draws (rng w)
  /\ x (self (snd (make_landmarks n w))) = x (self w)
  /\ y (self (snd (make_landmarks n w))) = y (self w)
  /\ world_size (self (snd (make_landmarks n w))) = world_size (self w)
  /\ measurement_range (self (snd (make_landmarks n w)))
     = measurement_range (self w)
  /\ motion_noise (self (snd (make_landmarks n w))) = motion_noise (self w)
  /\ measurement_noise (self (snd (make_landmarks n w)))
     = measurement_noise (self w).
Proof.
  rewrite make_landmarks_unfold.
  cbn [snd self rng advance cursor draws with_num_landmarks with_landmarks
       x y world_size measurement_range motion_noise measurement_noise].
  repeat split. lia.
Qed.

(** X13. With a count [n <= 0], [make_landmarks(n)] leaves the robot with
    no landmark and consumes no draw, and it records the count as given:
    [num_landmarks] is [n], negative when [n] is. *)
Theorem make_landmarks_nonpositive (n : Z) (w : World) :
  (n <= 0)%Z ->
  landmarks (self (snd (make_landmarks n w))) = []
  /\ num_landmarks (self (snd (make_landmarks n w))) = n
  /\ cursor (rng (snd (make_landmarks n w))) = cursor (rng w).
Proof.
  intro Hn. rewrite make_landmarks_unfold.
  cbn [snd self rng advance cursor with_num_landmarks with_landmarks
       landmarks num_landmarks].
  replace (Z.to_nat n) with 0%nat by lia.
  repeat split.
Qed.

Lemma make_landmarks_nonpositive_witness :
  landmarks (self (snd (make_landmarks (-2) (sample_world 30 1 1 3)))) = []
  /\ num_landmarks (self (snd (make_landmarks (-2) (sample_world 30 1 1 3))))
     = (-2)%Z
  /\ cursor (rng (snd (make_landmarks (-2) (sample_world 30 1 1 3))))
     = cursor (rng (sample_world 30 1 1 3)).
Proof.
  apply (make_landmarks_nonpositive (-2) (sample_world 30 1 1 3)).
  lia.
Defined.

Lemma py_round_near (v : Q) :
  v - (1 # 2) <= inject_Z (py_round v) /\ inject_Z (py_round v) <= v + (1 # 2).
Proof.
  pose proof (Qfloor_le v) as Hlo. pose proof (Qlt_floor v) as Hhi.
  rewrite inject_Z_plus in Hhi. change (inject_Z 1) with 1 in Hhi.
  unfold py_round.
  destruct (Qlt_bool (v - inject_Z (Qfloor v)) (1 # 2)) eqn:E1.
  { apply Qlt_bool_iff in E1. split; lra. }
  apply Qlt_bool_false_iff in E1.
  destruct (Qlt_bool (1 # 2) (v - inject_Z (Qfloor v))) eqn:E2.
  { rewrite inject_Z_plus. change (inject_Z 1) with 1. split; lra. }
  apply Qlt_bool_false_iff in E2.
  destruct (Z.even (Qfloor v));
    [|rewrite inject_Z_plus; change (inject_Z 1) with 1]; split; lra.
Qed.

Lemma placed_near_world (ws : Q) (d : nat -> Q) :
  0 <= ws ->
  (forall i : nat, 0 <= d i /\ d i < 1) ->
  forall (n c : nat),
    Forall (fun lm : Landmark =>
              (0 <= inject_Z (fst lm) /\ inject_Z (fst lm) < ws + (1 # 2))
              /\ (0 <= inject_Z (snd lm)
                  /\ inject_Z (snd lm) < ws + (1 # 2)))
      (placed ws d c n).
Proof.
  intros Hws Hd.
  assert (Hcoord : forall i : nat,
             0 <= inject_Z (py_round (d i * ws))
             /\ inject_Z (py_round (d i * ws)) < ws + (1 # 2)).
  { intro i. destruct (Hd i) as [Hlo Hhi]. split.
    - change 0 with (inject_Z 0). rewrite <- Zle_Qle.
      apply py_round_nonneg. apply Qmult_le_0_compat; assumption.
    - destruct (Qlt_le_dec 0 ws) as [Hpos | Hzero].
      + assert (H1 : d i * ws < 1 * ws)
          by (apply Qmult_lt_compat_r; assumption).
        destruct (py_round_near (d i * ws)) as [_ H2]. lra.
      + assert (E : ws == 0) by lra.
        assert (E' : d i * ws == 0) by (rewrite E; ring).
        assert (Hr : (py_round (d i * ws) <= 0)%Z)
          by (apply py_round_le_integer; rewrite E'; apply Qle_refl).
        rewrite Zle_Qle in Hr. change (inject_Z 0) with 0 in Hr. lra. }
  induction n as [|n IH]; intro c; cbn [placed]; constructor.
  - cbn [fst snd]. split; apply Hcoord.
  - apply IH.
Qed.

(** X14. Whatever the world size, provided it is not negative: every
    coordinate [make_landmarks] produces is an integer from [0] to less
    than [world_size + 1/2], so a landmark lies at most half a unit
    outside the world. *)
Theorem make_landmarks_near_world (n : Z) (w : World) :
  0 <= world_size (self w) ->
  unit_draws (rng w) ->
  Forall (fun lm : Landmark =>
            (0 <= inject_Z (fst lm)
             /\ inject_Z (fst lm) < world_size (self w) + (1 # 2))
            /\ (0 <= inject_Z (snd lm)
                /\ inject_Z (snd lm) < world_size (self w) + (1 # 2)))
    (landmarks (self (snd (make_landmarks n w)))).
Proof.
  intros Hws Hd. rewrite make_landmarks_unfold.
  cbn [snd self with_num_landmarks with_landmarks landmarks].
  apply placed_near_world; assumption.
Qed.

Lemma make_landmarks_near_world_witness :
  Forall (fun lm : Landmark =>
            (0 <= inject_Z (fst lm)
             /\ inject_Z (fst lm)
                < world_size (self (fresh_world 30 1 1)) + (1 # 2))
            /\ (0 <= inject_Z (snd lm)
                /\ inject_Z (snd lm)
                   < world_size (self (fresh_world 30 1 1)) + (1 # 2)))
    (landmarks (self (snd (make_landmarks 3 (fresh_world 30 1 1))))).
Proof.
  apply (make_landmarks_near_world 3 (fresh_world 30 1 1)).
  - vm_compute. discriminate.
  - exact sample_draws_unit.
Defined.

(** ** What no call changes *)

Lemma call_frame_move (dx dy : Q) (w : World) :
  world_size (self (snd (move dx dy w))) = world_size (self w)
  /\ measurement_range (self (snd (move dx dy w))) = measurement_range (self w)
  /\ motion_noise (self (snd (move dx dy w))) = motion_noise (self w)
  /\ measurement_noise (self (snd (move dx dy w)))
     = measurement_noise (self w)
  /\ landmarks (self (snd (move dx dy w))) = landmarks (self w)
  /\ num_landmarks (self (snd (move dx dy w))) = num_landmarks (self w)
  /\ draws (rng (snd (move dx dy w))) = draws (rng w)
  /\ (cursor (rng w) <= cursor (rng (snd (move dx dy w))))%nat.
Proof.
  rewrite move_unfold.
  destruct (out_of_world _ _ _); cbn; repeat split; lia.
Qed.

(** X15. However many calls of [move], [sense] and [make_landmarks] are
    made on a robot, its four parameters keep the values they had, the
    generator keeps its sequence of values, and its cursor never moves
    back. *)
Theorem calls_keep_parameters (w0 w : World) :
  calls w0 w ->
  world_size (self w) = world_size (self w0)
  /\ measurement_range (self w) = measurement_range (self w0)
  /\ motion_noise (self w) = motion_noise (self w0)
  /\ measurement_noise (self w) = measurement_noise (self w0)
  /\ draws (rng w) = draws (rng w0)
  /\ (cursor (rng w0) <= cursor (rng w))%nat.
Proof.
  induction 1 as [| w dx dy _ IH | w _ IH | w n _ IH].
  - repeat split. lia.
  - destruct IH as (H1 & H2 & H3 & H4 & H5 & H6).
    destruct (call_frame_move dx dy w)
      as (F1 & F2 & F3 & F4 & _ & _ & F5 & F6).
    rewrite F1, F2, F3, F4, F5. repeat split; try assumption. lia.
  - destruct IH as (H1 & H2 & H3 & H4 & H5 & H6).
    rewrite sense_unfold. cbn [snd self rng advance cursor draws].
    repeat split; try assumption. lia.
  - destruct IH as (H1 & H2 & H3 & H4 & H5 & H6).
    rewrite make_landmarks_unfold.
    cbn [snd self rng advance cursor draws with_num_landmarks with_landmarks
         world_size measurement_range motion_noise measurement_noise].
    repeat split; try assumption. lia.
Qed.

Lemma calls_keep_parameters_witness :
  world_size (self (snd (move 10 (-5) (sample_world 30 1 1 3))))
  = world_size (self (fresh_world 30 1 1))
  /\ measurement_range (self (snd (move 10 (-5) (sample_world 30 1 1 3))))
     = measurement_range (self (fresh_world 30 1 1))
  /\ motion_noise (self (snd (move 10 (-5) (sample_world 30 1 1 3))))
     = motion_noise (self (fresh_world 30 1 1))
  /\ measurement_noise (self (snd (move 10 (-5) (sample_world 30 1 1 3))))
     = measurement_noise (self (fresh_world 30 1 1))
  /\ draws (rng (snd (move 10 (-5) (sample_world 30 1 1 3))))
     = draws (rng (fresh_world 30 1 1))
  /\ (cursor (rng (fresh_world 30 1 1))
      <= cursor (rng (snd (move 10 (-5) (sample_world 30 1 1 3)))))%nat.
Proof.
  apply (calls_keep_parameters (fresh_world 30 1 1)
           (snd (move 10 (-5) (sample_world 30 1 1 3)))).
  apply calls_move. unfold sample_world.
  apply calls_make_landmarks. apply calls_none.
Defined.

(** X16. Over a robot's whole lifetime [num_landmarks] counts the
    landmarks, except that a negative count goes with an empty list:
    [len(landmarks) == max(0, num_landmarks)]. *)
Theorem lifetime_landmark_count (w : World) :
  reachable w ->
  Z.of_nat (length (landmarks (self w))) = Z.max 0 (num_landmarks (self w)).
Proof.
  intro Hw. apply reachable_landmarks_counted in Hw. exact Hw.
Qed.

Lemma lifetime_landmark_count_witness :
  Z.of_nat (length (landmarks (self (sample_world 30 1 1 3))))
  = Z.max 0 (num_landmarks (self (sample_world 30 1 1 3))).
Proof.
  apply (lifetime_landmark_count (sample_world 30 1 1 3)).
  unfold sample_world, fresh_world. apply reach_make_landmarks.
  apply reach_init.
Defined.

(** ** Calls in sequence *)

(** X17. Without motion noise, a move by [(0, 0)] is always accepted
    during the lifetime of a robot whose world size is not negative, and
    it leaves the position where it was. *)
Theorem null_move_accepted (w : World) :
  reachable w ->
  0 <= world_size (self w) ->
  motion_noise (self w) == 0 ->
  fst (move 0 0 w) = true
  /\ x (self (snd (move 0 0 w))) == x (self w)
  /\ y (self (snd (move 0 0 w))) == y (self w).
Proof.
  intros Hw Hws Hmn.
  pose proof (reachable_in_world w Hw Hws) as Hin.
  destruct (candidate_noise_free 0 0 w Hmn) as [Hx Hy].
  assert (Hok : fst (move 0 0 w) = true).
  { apply move_true_iff. unfold in_world in *. rewrite Hx, Hy. lra. }
  split; [exact Hok|].
  rewrite move_unfold in Hok |- *.
  destruct (out_of_world _ _ _); [discriminate|].
  cbn [snd self with_x with_y x y]. rewrite Hx, Hy. split; ring.
Qed.

Lemma null_move_accepted_witness :
  fst (move 0 0 (sample_world 30 0 1 3)) = true
  /\ x (self (snd (move 0 0 (sample_world 30 0 1 3))))
     == x (self (sample_world 30 0 1 3))
  /\ y (self (snd (move 0 0 (sample_world 30 0 1 3))))
     == y (self (sample_world 30 0 1 3)).
Proof.
  apply (null_move_accepted (sample_world 30 0 1 3)).
  - unfold sample_world, fresh_world. apply reach_make_landmarks.
    apply reach_init.
  - vm_compute. discriminate.
  - vm_compute. reflexivity.
Defined.

Lemma Meq_join (l1 l2 e : list Measurement) :
  Forall2 Meq l1 e -> Forall2 Meq l2 e -> Forall2 Meq l1 l2.
Proof.
  intro H1. revert l2.
  induction H1 as [|m1 me l1 e (Hi & Hx & Hy) _ IH]; intros l2 H2;
    inversion H2 as [|m2 ? l2' ? (Hi' & Hx' & Hy') Hrest]; subst;
    constructor.
  - unfold Meq. rewrite Hi, Hi', Hx, Hx', Hy, Hy'.
    repeat split; reflexivity.
  - apply IH. exact Hrest.
Qed.

(** X18. Without measurement noise sensing is repeatable: a second call of
    [sense()] right after the first returns the same indices with the same
    offsets, although it reads other draws. *)
Theorem sense_twice_noise_free (w : World) :
  measurement_noise (self w) == 0 ->
  Forall2 Meq (fst (sense w)) (fst (sense (snd (sense w)))).
Proof.
  intro Hsn. rewrite (sense_unfold (snd (sense w))).
  rewrite sense_unfold. cbn [fst snd self rng advance cursor draws].
  eapply Meq_join; apply observe_noise_free; exact Hsn.
Qed.

Lemma sense_twice_noise_free_witness :
  Forall2 Meq (fst (sense (sample_world 30 1 0 3)))
    (fst (sense (snd (sense (sample_world 30 1 0 3))))).
Proof.
  apply (sense_twice_noise_free (sample_world 30 1 0 3)).
  vm_compute. reflexivity.
Defined.

(** X19. With unlimited range ([measurement_range == -1]), [sense()]
    called after [make_landmarks(n)], [n >= 0], returns exactly [n]
    measurements, with the indices [0] to [n - 1] in order. *)
Theorem sense_after_make_landmarks (n : Z) (w : World) :
  (0 <= n)%Z ->
  measurement_range (self w) == -1 ->
  Z.of_nat (length (fst (sense (snd (make_landmarks n w))))) = n
  /\ map m_index (fst (sense (snd (make_landmarks n w))))
     = map Z.of_nat (seq 0 (Z.to_nat n)).
Proof.
  intros Hn Hmr. rewrite sense_unfold. cbn [fst].
  rewrite make_landmarks_unfold.
  cbn [snd self rng with_num_landmarks with_landmarks measurement_range
       landmarks].
  apply Qeq_eq_bool in Hmr. rewrite Hmr.
  set (l := placed (world_size (self w)) (draws (rng w)) (cursor (rng w))
              (Z.to_nat n)).
  assert (Hlen : length l = Z.to_nat n) by apply placed_length.
  assert (Hidx : map m_index
                   (observe
                      (with_num_landmarks n (with_landmarks l (self w)))
                      true (draws (advance (2 * Z.to_nat n) (rng w)))
                      (cursor (advance (2 * Z.to_nat n) (rng w)))
                      (enumerate l))
                 = map fst (enumerate l)) by apply observe_all.
  assert (Hseq : forall (k : list Landmark) (s : nat),
             map fst (enumerate_from (Z.of_nat s) k)
             = map Z.of_nat (seq s (length k))).
  { induction k as [|a k IH]; intro s; cbn [enumerate_from map length seq fst];
      [reflexivity|].
    f_equal. replace (Z.of_nat s + 1)%Z with (Z.of_nat (S s)) by lia.
    apply IH. }
  split.
  - apply (f_equal (@length Z)) in Hidx. rewrite !length_map in Hidx.
    rewrite Hidx. unfold enumerate. rewrite enumerate_from_length. lia.
  - rewrite Hidx. unfold enumerate. rewrite <- Hlen. apply (Hseq l 0%nat).
Qed.

Lemma sense_after_make_landmarks_witness :
  Z.of_nat (length (fst (sense (snd (make_landmarks 3 (fresh_world (-1) 1 1))))))
  = 3%Z
  /\ map m_index (fst (sense (snd (make_landmarks 3 (fresh_world (-1) 1 1)))))
     = map Z.of_nat (seq 0 (Z.to_nat 3)).
Proof.
  apply (sense_after_make_landmarks 3 (fresh_world (-1) 1 1)).
  - lia.
  - reflexivity.
Defined.
